(** * syn-blog-format: a shallow embedding of [src/lib.rs]

    The element grammar ([SynElement::parse_line], [generate_tag],
    [generate_line]) and the document model ([SynFile::load_file],
    [load_file_metadata], [save_file]).

    Text is modelled as Rocq strings of 8-bit characters; the embedding
    covers ASCII text, where one character is one byte, so the byte
    length returned by [read_line] is the string length.  A file is
    given by its content: [None] models a [File::open] that failed.
    The [BufReader] is modelled as the list of line chunks that
    successive [read_line] calls return (each chunk keeps its ['\n']). *)

From Stdlib Require Import String Ascii List Bool Arith Lia NArith.
Import ListNotations.
Open Scope string_scope.

(** ** Rust's [Result] *)

Inductive result (A E : Type) : Type :=
| Ok : A -> result A E
| Err : E -> result A E.
Arguments Ok {A E} _.
Arguments Err {A E} _.

(** ** String primitives of the Rust standard library *)

Definition nl : ascii := "010"%char.
Definition NL : string := String nl EmptyString.


(** [char::is_whitespace] on the ASCII range. *)
Definition is_ws (c : ascii) : bool :=
  match nat_of_ascii c with
  | 9 | 10 | 11 | 12 | 13 | 32 => true
  | _ => false
  end.

(** [str::trim_start] *)
Fixpoint trim_start (s : string) : string :=
  match s with
  | EmptyString => EmptyString
  | String c s' => if is_ws c then trim_start s' else s
  end.

(** [str::trim_end] *)
Fixpoint trim_end (s : string) : string :=
  match s with
  | EmptyString => EmptyString
  | String c s' =>
      let t := trim_end s' in
      if is_ws c && String.eqb t EmptyString then EmptyString else String c t
  end.

(** [str::trim] *)
Definition trim (s : string) : string := trim_end (trim_start s).

(** [str::starts_with] *)
Definition starts_with (s pat : string) : bool := String.prefix pat s.

(** [&s[n..]] (only used at character boundaries) *)
Fixpoint drop (n : nat) (s : string) : string :=
  match n, s with
  | O, _ => s
  | S _, EmptyString => EmptyString
  | S k, String _ s' => drop k s'
  end.

(** [s.split(sep).map(|e| e.to_string()).collect::<Vec<_>>()] for a
    one-character separator: never empty, [""] splits into [[""]]. *)
Fixpoint split (sep : ascii) (s : string) : list string :=
  match s with
  | EmptyString => [EmptyString]
  | String c s' =>
      let r := split sep s' in
      if Ascii.eqb c sep then EmptyString :: r
      else match r with
           | h :: t => String c h :: t
           | [] => [String c EmptyString]
           end
  end.

(** [[..].join(sep)] *)
Fixpoint join (sep : string) (l : list string) : string :=
  match l with
  | [] => EmptyString
  | [x] => x
  | x :: xs => x ++ sep ++ join sep xs
  end.

(** [str::replace(pat, to)] for a non-empty pattern: matches are taken
    from left to right without overlap; [skip] counts the characters of
    the last match still to be passed over. *)
Fixpoint replace_aux (pat to : string) (skip : nat) (s : string) : string :=
  match s with
  | EmptyString => EmptyString
  | String c s' =>
      match skip with
      | S k => replace_aux pat to k s'
      | O => if String.prefix pat s
             then to ++ replace_aux pat to (String.length pat - 1) s'
             else String c (replace_aux pat to 0 s')
      end
  end.

Definition replace (s pat to : string) : string := replace_aux pat to 0 s.

(** ** [u64]: decimal formatting and [str::parse::<u64>] *)

Definition u64_max : N := 18446744073709551616%N. (* 2^64 *)

Definition checked_mul (a b : N) : option N :=
  if (a * b <? u64_max)%N then Some (a * b)%N else None.
Definition checked_add (a b : N) : option N :=
  if (a + b <? u64_max)%N then Some (a + b)%N else None.

Definition digit_value (c : ascii) : option N :=
  let n := N_of_ascii c in
  if ((48 <=? n) && (n <=? 57))%N then Some (n - 48)%N else None.

(** The digit loop of [u64::from_str_radix(_, 10)]. *)
Fixpoint parse_digits (acc : N) (s : string) : option N :=
  match s with
  | EmptyString => Some acc
  | String c s' =>
      match digit_value c with
      | None => None
      | Some d =>
          match checked_mul acc 10 with
          | None => None
          | Some m => match checked_add m d with
                      | None => None
                      | Some acc' => parse_digits acc' s'
                      end
          end
      end
  end.

(** [str::parse::<u64>]: empty input is an error, a lone sign is an
    error, a leading ['+'] is accepted; ['-'] is then an invalid digit. *)
Definition parse_u64 (s : string) : option N :=
  match s with
  | EmptyString => None
  | String c s' =>
      if Ascii.eqb c "+"%char then
        match s' with
        | EmptyString => None
        | _ => parse_digits 0 s'
        end
      else parse_digits 0 s
  end.

Definition digit_char (d : N) : ascii := ascii_of_N (48 + d).

Fixpoint dec_aux (fuel : nat) (n : N) (acc : string) : string :=
  match fuel with
  | O => acc
  | S f =>
      let acc' := String (digit_char (n mod 10)) acc in
      if (n <? 10)%N then acc' else dec_aux f (n / 10) acc'
  end.

(** [format!("{}", n)] for [n : u64] (at most 20 digits). *)
Definition u64_to_string (n : N) : string := dec_aux 20 n EmptyString.

(** ** [SynElement] *)

Inductive SynElement : Type :=
| Text (text : string)
| Code (text : string)
| Heading (text : string)
| Image (path alt style : string)
| LineH.

(** [SynElement::parse_line]; the error type is [()]. *)
Definition parse_line (line : string) : result SynElement unit :=
  let line := trim line in
  if String.eqb line "---" then Ok LineH
  else if starts_with line "#" then Ok (Heading (drop 1 line))
  else if starts_with line ".img " then
    let sections := split "|"%char (drop 5 line) in
    match sections with
    | [path; alt; style] => Ok (Image path alt style)
    | _ => Err tt
    end
  else if starts_with line ".code " then Ok (Code (drop 6 line))
  else Ok (Text line).

(** [SynElement::generate_tag] *)
Definition generate_tag (e : SynElement) : string :=
  match e with
  | Text text =>
      let text := replace text (String nl EmptyString) "<br>" in
      "<p>" ++ text ++ "</p>"
  | Code text => "<p class='code'>" ++ text ++ "</p>"
  | Heading text => "<h2>" ++ text ++ "</h2>"
  | Image path alt style =>
      "<img src='" ++ path ++ "' style='" ++ style ++ "'>" ++ alt ++ "</img>"
  | LineH => "<div class='hline'></div>"
  end.

(** [SynElement::generate_line] *)
Definition generate_line (e : SynElement) : string :=
  match e with
  | Text text => text
  | Code text => ".code " ++ text
  | Heading text => "#" ++ text
  | Image path alt style => ".img " ++ path ++ "|" ++ alt ++ "|" ++ style
  | LineH => "---"
  end.

(** ** [SynFile] *)

Record SynFile : Type := mkSynFile {
  title : string;
  tags : list string;
  posted : N;
  summary : string;
  elements : list SynElement
}.

(** The line chunks a [BufReader] yields: each chunk runs up to and
    including the next ['\n'], the last one possibly without it. *)
Fixpoint chunks (s : string) : list string :=
  match s with
  | EmptyString => []
  | String c s' =>
      if Ascii.eqb c nl then String c EmptyString :: chunks s'
      else match chunks s' with
           | [] => [String c EmptyString]
           | ch :: rest => String c ch :: rest
           end
  end.

(** [reader.read_line(&mut line)]: appends the next chunk to [line] and
    returns the number of bytes read ([0] at end of input). *)
Definition read_line (line : string) (reader : list string)
  : nat * string * list string :=
  match reader with
  | [] => (0, line, [])
  | ch :: rest => (String.length ch, line ++ ch, rest)
  end.

(** [if let Ok(element) = SynElement::parse_line(line.clone()) {
    elements.push(element); }] *)
Definition push_parsed (elements : list SynElement) (line : string)
  : list SynElement :=
  match parse_line line with
  | Ok element => elements ++ [element]
  | Err _ => elements
  end.

(** The body loop of [load_file]:
    [while let Ok(len) = reader.read_line(&mut line) {
       if len <= 1 { push_parsed; line.clear(); }
       if len == 0 { break; } }].
    The recursion follows the reader: the empty reader is the [len == 0]
    iteration, which flushes [line] and breaks. *)
Fixpoint read_body (elements : list SynElement) (line : string)
  (reader : list string) {struct reader} : list SynElement :=
  match reader with
  | [] => push_parsed elements line
  | ch :: reader' =>
      let line := line ++ ch in
      if Nat.leb (String.length ch) 1
      then read_body (push_parsed elements line) EmptyString reader'
      else read_body elements line reader'
  end.

(** [SynFile::load_file]. Note that [line] is not cleared after the
    summary is read. *)
Definition load_file (file : option string) : result SynFile unit :=
  match file with
  | None => Err tt
  | Some content =>
      let reader := chunks content in
      let '(_, line, reader) := read_line EmptyString reader in
      let title := trim line in
      let line := EmptyString in
      let '(_, line, reader) := read_line line reader in
      let tags := map trim (split ","%char line) in
      let line := EmptyString in
      let '(_, line, reader) := read_line line reader in
      let posted := match parse_u64 (trim line) with
                    | Some n => n | None => 0%N end in
      let line := EmptyString in
      let '(_, line, reader) := read_line line reader in
      let summary := trim line in
      let elements := read_body [] line reader in
      Ok (mkSynFile title tags posted summary elements)
  end.

(** [SynFile::load_file_metadata] *)
Definition load_file_metadata (file : option string) : result SynFile unit :=
  match file with
  | None => Err tt
  | Some content =>
      let reader := chunks content in
      let '(_, line, reader) := read_line EmptyString reader in
      let title := trim line in
      let line := EmptyString in
      let '(_, line, reader) := read_line line reader in
      let tags := map trim (split ","%char line) in
      let line := EmptyString in
      let '(_, line, reader) := read_line line reader in
      let posted := match parse_u64 (trim line) with
                    | Some n => n | None => 0%N end in
      let line := EmptyString in
      let '(_, line, _) := read_line line reader in
      let summary := trim line in
      let elements := [] in
      Ok (mkSynFile title tags posted summary elements)
  end.

(** [SynFile::save_file]: the text written to a file that was created. *)
Definition save_file (f : SynFile) : string :=
  title f ++ String nl EmptyString ++ join "," (tags f) ++ String nl EmptyString
  ++ u64_to_string (posted f) ++ String nl EmptyString ++ summary f
  ++ String nl (String nl EmptyString)
  ++ fold_right (fun e acc =>
                   generate_line e ++ String nl (String nl EmptyString) ++ acc)
                EmptyString (elements f).

(** ** Auxiliary predicates used in the statements *)

Fixpoint has_char (c : ascii) (s : string) : bool :=
  match s with
  | EmptyString => false
  | String c' s' => Ascii.eqb c' c || has_char c s'
  end.

Fixpoint all_ws (s : string) : bool :=
  match s with
  | EmptyString => true
  | String c s' => is_ws c && all_ws s'
  end.

Fixpoint no_ws (s : string) : bool :=
  match s with
  | EmptyString => true
  | String c s' => negb (is_ws c) && no_ws s'
  end.

(** A block of the body: every one of its lines is non-empty, so that
    none of them is read as a separator. *)
Definition block_ok (b : string) : Prop :=
  Forall (fun l => l <> EmptyString) (split nl b).

(** The shape of a document text: four header lines, a separator, and
    blocks each followed by a blank line. *)
Definition blocks_text (bs : list string) : string :=
  fold_right (fun b acc => b ++ String nl (String nl EmptyString) ++ acc)
             EmptyString bs.

Definition doc_text (h1 h2 h3 h4 : string) (bs : list string) : string :=
  h1 ++ NL ++ h2 ++ NL ++ h3 ++ NL ++ h4 ++ NL ++ NL ++ blocks_text bs.

(** The elements the blocks parse to, failed blocks left out. *)
Definition parsed_blocks (bs : list string) : list SynElement :=
  flat_map (fun b => match parse_line b with
                     | Ok e => [e]
                     | Err _ => []
                     end) bs.

(** The wire lines [parse_line] reads back to the element they came
    from: untouched by [trim], no ['|'] inside an image field, and a
    text that is not taken for another kind of element. *)
Definition wire_stable (e : SynElement) : Prop :=
  trim (generate_line e) = generate_line e /\
  match e with
  | Text t => t <> "---" /\ starts_with t "#" = false /\
              starts_with t ".img " = false /\ starts_with t ".code " = false
  | Image p a s => has_char "|"%char p = false /\ has_char "|"%char a = false /\
                   has_char "|"%char s = false
  | _ => True
  end.

(** Replacing each newline by [<br>], character by character. *)
Fixpoint newlines_to_br (s : string) : string :=
  match s with
  | EmptyString => EmptyString
  | String c s' =>
      (if Ascii.eqb c nl then "<br>" else String c EmptyString)
      ++ newlines_to_br s'
  end.

(** The lines of length at most 1 among [reader]: those on which the
    body loop flushes its line buffer. *)
Definition blank_count (reader : list string) : nat :=
  List.length (filter (fun ch => Nat.leb (String.length ch) 1) reader).

(** The number of empty text elements at the front of a list. *)
Fixpoint lead_empty (es : list SynElement) : nat :=
  match es with
  | Text EmptyString :: r => S (lead_empty r)
  | _ => 0
  end.

(** The number of empty text elements at the end of a list. *)
Definition trailing_empty (es : list SynElement) : nat := lead_empty (rev es).

(** One element as [save_file] writes it, before what follows. *)
Definition save_block (e : SynElement) (acc : string) : string :=
  generate_line e ++ String nl (String nl EmptyString) ++ acc.

(** ** Tests *)

Example test_text : parse_line ("Hello," ++ NL ++ "SynBlog!")
  = Ok (Text ("Hello," ++ NL ++ "SynBlog!")).
Proof. reflexivity. Qed.
Example test_text_tag : generate_tag (Text ("Hello," ++ NL ++ "SynBlog!"))
  = "<p>Hello,<br>SynBlog!</p>".
Proof. reflexivity. Qed.
Example test_img : parse_line ".img test.png|A test image!|width:100%"
  = Ok (Image "test.png" "A test image!" "width:100%").
Proof. reflexivity. Qed.
Example test_heading : parse_line "#Big Title" = Ok (Heading "Big Title").
Proof. reflexivity. Qed.
Example test_u64 : parse_u64 (u64_to_string 18446744073709551615%N)
  = Some 18446744073709551615%N.
Proof. vm_compute. reflexivity. Qed.
Example test_u64_over : parse_u64 "18446744073709551616" = None.
Proof. vm_compute. reflexivity. Qed.

(** ** Lemmas on strings *)

Lemma sapp_nil_r (s : string) : s ++ EmptyString = s.
Proof. induction s; simpl; congruence. Qed.

Lemma sapp_assoc (a b c : string) : (a ++ b) ++ c = a ++ b ++ c.
Proof. induction a; simpl; congruence. Qed.

Lemma trim_start_all_ws (w : string) : all_ws w = true -> trim_start w = EmptyString.
Proof.
  induction w as [|c w IH]; simpl; auto.
  intros H; apply andb_prop in H as [-> H]; auto.
Qed.

Lemma trim_end_all_ws (w : string) : all_ws w = true -> trim_end w = EmptyString.
Proof.
  induction w as [|c w IH]; simpl; auto.
  intros H; apply andb_prop in H as [-> H]; rewrite IH; auto.
Qed.

Lemma trim_end_app_ws (s w : string) :
  all_ws w = true -> trim_end (s ++ w) = trim_end s.
Proof.
  intros Hw; induction s as [|c s IH]; simpl.
  - apply trim_end_all_ws; auto.
  - rewrite IH; reflexivity.
Qed.

Lemma trim_start_app_ws (s w : string) :
  all_ws w = true ->
  trim_start (s ++ w) =
  if String.eqb (trim_start s) EmptyString then EmptyString else trim_start s ++ w.
Proof.
  intros Hw; induction s as [|c s IH]; simpl.
  - apply trim_start_all_ws; auto.
  - destruct (is_ws c); auto.
Qed.

Lemma trim_app_ws (s w : string) : all_ws w = true -> trim (s ++ w) = trim s.
Proof.
  intros Hw; unfold trim; rewrite trim_start_app_ws by auto.
  destruct (String.eqb (trim_start s) EmptyString) eqn:E.
  - apply String.eqb_eq in E; rewrite E; reflexivity.
  - apply trim_end_app_ws; auto.
Qed.

Lemma parse_line_app_ws (s w : string) :
  all_ws w = true -> parse_line (s ++ w) = parse_line s.
Proof. intros Hw; unfold parse_line; rewrite trim_app_ws by auto; reflexivity. Qed.

Lemma parse_line_app_ws_push (acc : list SynElement) (s w : string) :
  all_ws w = true ->
  push_parsed acc (s ++ w) = app acc (parsed_blocks [s]).
Proof.
  intros Hw; unfold push_parsed, parsed_blocks; simpl.
  rewrite parse_line_app_ws by auto.
  destruct (parse_line s); simpl; rewrite ?app_nil_r; reflexivity.
Qed.

Lemma trim_no_ws (s : string) : no_ws s = true -> trim s = s.
Proof.
  intros H; unfold trim.
  assert (Hs : trim_start s = s).
  { destruct s as [|c s]; simpl in *; auto.
    apply andb_prop in H as [H _]; destruct (is_ws c); auto; discriminate. }
  rewrite Hs; clear Hs.
  induction s as [|c s IH]; simpl in *; auto.
  apply andb_prop in H as [H1 H2]; rewrite IH by auto.
  destruct (is_ws c); simpl in *; auto; discriminate.
Qed.

Lemma slength_app (a b : string) :
  String.length (a ++ b) = String.length a + String.length b.
Proof. induction a; simpl; congruence. Qed.

(** ** Lemmas on [split] and [join] *)

Lemma split_cons (sep : ascii) (s : string) :
  exists h t, split sep s = h :: t.
Proof.
  induction s as [|c s [h [t IH]]]; simpl; eauto.
  rewrite IH; destruct (Ascii.eqb c sep); eauto.
Qed.

Lemma split_app_free (sep : ascii) (x t : string) :
  has_char sep x = false ->
  split sep (x ++ t) = match split sep t with
                       | h :: r => (x ++ h) :: r
                       | [] => []
                       end.
Proof.
  induction x as [|c x IH]; simpl; intros H.
  - destruct (split sep t); reflexivity.
  - apply orb_false_elim in H as [H1 H2]; rewrite IH by auto; rewrite H1.
    destruct (split_cons sep t) as [h [r E]]; rewrite E; reflexivity.
Qed.

Lemma split_join (sep : ascii) (s : string) :
  join (String sep EmptyString) (split sep s) = s.
Proof.
  induction s as [|c s IH]; simpl; auto.
  destruct (split_cons sep s) as [h [t E]]; rewrite E in *.
  destruct (Ascii.eqb c sep) eqn:Ec.
  - apply Ascii.eqb_eq in Ec; subst; simpl.
    destruct t; simpl in *; congruence.
  - destruct t; simpl in *; congruence.
Qed.

Lemma split_no_sep (sep : ascii) (s : string) :
  Forall (fun x => has_char sep x = false) (split sep s).
Proof.
  induction s as [|c s IH]; simpl; auto.
  destruct (split_cons sep s) as [h [t E]]; rewrite E in *.
  inversion IH; subst.
  destruct (Ascii.eqb c sep) eqn:Ec; constructor; simpl; auto.
  rewrite Ec; auto.
Qed.

Lemma split_single (sep : ascii) (x : string) :
  has_char sep x = false -> split sep x = [x].
Proof.
  intros H; rewrite <- (sapp_nil_r x), split_app_free by auto; reflexivity.
Qed.

(** ** Lemmas on the reader *)

Definition line_ok (l : string) : Prop :=
  l <> EmptyString /\ has_char nl l = false.

Lemma chunks_line (a r : string) :
  has_char nl a = false -> chunks (a ++ String nl r) = (a ++ NL) :: chunks r.
Proof.
  induction a as [|c a IH]; simpl; intros H; auto.
  apply orb_false_elim in H as [H1 H2]; rewrite H1, IH by auto; reflexivity.
Qed.

Lemma chunks_block (ls : list string) (R : string) :
  ls <> [] -> Forall line_ok ls ->
  chunks (join NL ls ++ String nl (String nl R))
  = app (map (fun l => l ++ NL) ls) (NL :: chunks R).
Proof.
  induction ls as [|x ls IH]; intros Hne Hok; [congruence|].
  inversion Hok as [|? ? [_ Hx] Hls]; subst.
  destruct ls as [|y ls].
  - simpl join; rewrite chunks_line by auto; reflexivity.
  - change (join NL (x :: y :: ls)) with (x ++ NL ++ join NL (y :: ls)).
    rewrite !sapp_assoc; change (NL ++ ?z) with (String nl z).
    rewrite chunks_line, IH by (auto; discriminate); reflexivity.
Qed.

Lemma read_body_long (cs : list string) (acc : list SynElement)
  (line : string) (rest : list string) :
  Forall (fun c => 2 <= String.length c) cs ->
  read_body acc line (app cs rest)
  = read_body acc (line ++ fold_right String.append EmptyString cs) rest.
Proof.
  revert line; induction cs as [|c cs IH]; intros line Hl; simpl.
  - rewrite sapp_nil_r; reflexivity.
  - inversion Hl; subst.
    destruct (Nat.leb (String.length c) 1) eqn:E;
      [apply Nat.leb_le in E; lia|].
    rewrite IH by auto; rewrite sapp_assoc; reflexivity.
Qed.

Lemma concat_lines (ls : list string) :
  ls <> [] ->
  fold_right String.append EmptyString (map (fun l => l ++ NL) ls)
  = join NL ls ++ NL.
Proof.
  induction ls as [|x ls IH]; intros Hne; [congruence|].
  destruct ls as [|y ls].
  - simpl; rewrite sapp_nil_r; reflexivity.
  - change (fold_right String.append EmptyString
              (map (fun l => l ++ NL) (x :: y :: ls)))
      with ((x ++ NL) ++ fold_right String.append EmptyString
                           (map (fun l => l ++ NL) (y :: ls))).
    change (join NL (x :: y :: ls)) with (x ++ NL ++ join NL (y :: ls)).
    rewrite IH by discriminate; rewrite !sapp_assoc; reflexivity.
Qed.

(** One block followed by a blank line is read as one candidate. *)
Lemma read_body_block (ls : list string) (acc : list SynElement)
  (line R : string) :
  ls <> [] -> Forall line_ok ls ->
  read_body acc line (chunks (join NL ls ++ String nl (String nl R)))
  = read_body (push_parsed acc (line ++ join NL ls ++ String nl (String nl EmptyString)))
              EmptyString (chunks R).
Proof.
  intros Hne Hok.
  rewrite chunks_block by auto.
  rewrite read_body_long.
  - rewrite concat_lines by auto; simpl.
    rewrite !sapp_assoc; reflexivity.
  - apply Forall_map; eapply Forall_impl; [|exact Hok].
    intros l [Hl _]; simpl; rewrite slength_app; simpl.
    destruct l; simpl; [congruence|lia].
Qed.

Lemma NL_app (z : string) : NL ++ z = String nl z.
Proof. reflexivity. Qed.

Lemma chunks_nl (r : string) : chunks (String nl r) = NL :: chunks r.
Proof. reflexivity. Qed.

Lemma all_ws_nlnl : all_ws (String nl (String nl EmptyString)) = true.
Proof. reflexivity. Qed.

Lemma block_lines_ok (b : string) : block_ok b -> Forall line_ok (split nl b).
Proof.
  intros Hb; pose proof (split_no_sep nl b) as Hs; unfold block_ok in Hb.
  revert Hs; induction Hb as [|l ls Hl Hls IH]; intros Hs; auto.
  inversion Hs; subst; constructor; [split|]; auto.
Qed.

(** The body scanner over well-formed blocks. *)
Lemma read_body_blocks (bs : list string) (acc : list SynElement) :
  Forall block_ok bs ->
  read_body acc EmptyString (chunks (blocks_text bs))
  = read_body (app acc (parsed_blocks bs)) EmptyString [].
Proof.
  revert acc; induction bs as [|b bs IH]; intros acc Hbs.
  - simpl; rewrite app_nil_r; reflexivity.
  - inversion Hbs as [|? ? Hb Hbs']; subst.
    assert (E : join NL (split nl b) = b) by apply split_join.
    change (blocks_text (b :: bs))
      with (b ++ String nl (String nl EmptyString) ++ blocks_text bs).
    simpl (String nl (String nl EmptyString) ++ blocks_text bs).
    rewrite <- E at 1.
    rewrite read_body_block.
    + rewrite E; simpl (EmptyString ++ _).
      rewrite parse_line_app_ws_push by apply all_ws_nlnl.
      rewrite IH by auto.
      f_equal; simpl; rewrite app_nil_r, app_assoc; reflexivity.
    + destruct (split_cons nl b) as [h [t Ht]]; rewrite Ht; discriminate.
    + apply block_lines_ok; auto.
Qed.

(** ** Reading a whole document text *)

Lemma load_doc_text (h1 h2 h3 h4 : string) (bs : list string) :
  has_char nl h1 = false -> has_char nl h2 = false ->
  has_char nl h3 = false -> has_char nl h4 = false ->
  Forall block_ok bs ->
  load_file (Some (doc_text h1 h2 h3 h4 bs))
  = Ok (mkSynFile (trim h1) (map trim (split ","%char (h2 ++ NL)))
          (match parse_u64 (trim h3) with Some n => n | None => 0%N end)
          (trim h4)
          (read_body (app (push_parsed [] (h4 ++ String nl (String nl EmptyString)))
                          (parsed_blocks bs)) EmptyString [])).
Proof.
  intros H1 H2 H3 H4 Hbs; unfold load_file, doc_text.
  rewrite !NL_app, !chunks_line, chunks_nl by auto.
  cbn [read_line String.append String.length NL read_body Nat.leb].
  rewrite !trim_app_ws by reflexivity.
  rewrite read_body_blocks by auto.
  rewrite sapp_assoc; reflexivity.
Qed.

(** ** The element grammar *)

Lemma prefix_empty (t : string) : String.prefix EmptyString t = true.
Proof. destruct t; reflexivity. Qed.

Lemma prefix_app (p t : string) : String.prefix p (p ++ t) = true.
Proof.
  induction p as [|c p IH]; simpl.
  - destruct t; reflexivity.
  - destruct (ascii_dec c c); congruence.
Qed.

Lemma split_bar3 (p a s : string) :
  has_char "|"%char p = false -> has_char "|"%char a = false ->
  has_char "|"%char s = false ->
  split "|"%char (p ++ String "|" (a ++ String "|" s)) = [p; a; s].
Proof.
  intros Hp Ha Hs.
  rewrite split_app_free by auto; simpl.
  rewrite split_app_free by auto; simpl.
  rewrite split_single by auto; rewrite !sapp_nil_r; reflexivity.
Qed.

Lemma parse_generate_line (e : SynElement) :
  wire_stable e -> parse_line (generate_line e) = Ok e.
Proof.
  intros [Htrim Hk]; unfold parse_line; rewrite Htrim.
  unfold starts_with in *.
  destruct e as [t|t|t|p a s|]; simpl generate_line in *.
  - destruct Hk as [H1 [H2 [H3 H4]]].
    destruct (String.eqb t "---") eqn:E; [apply String.eqb_eq in E; congruence|].
    rewrite H2, H3, H4; reflexivity.
  - cbn; rewrite prefix_empty; reflexivity.
  - cbn; rewrite prefix_empty; reflexivity.
  - destruct Hk as [Hp [Ha Hs]]; cbn.
    rewrite prefix_empty, split_bar3 by auto; reflexivity.
  - reflexivity.
Qed.

(** ** [u64] formatting is read back by [parse_u64] *)

Lemma digit_char_props (d : N) :
  (d < 10)%N ->
  is_ws (digit_char d) = false /\ digit_value (digit_char d) = Some d /\
  Ascii.eqb (digit_char d) "+"%char = false.
Proof.
  intros Hd.
  assert (d = 0 \/ d = 1 \/ d = 2 \/ d = 3 \/ d = 4 \/ d = 5 \/ d = 6 \/
          d = 7 \/ d = 8 \/ d = 9)%N as Hc by lia.
  repeat destruct Hc as [-> | Hc]; subst; repeat split; reflexivity.
Qed.

Lemma dec_aux_no_ws (f : nat) (n : N) (acc : string) :
  no_ws acc = true -> no_ws (dec_aux f n acc) = true.
Proof.
  revert n acc; induction f as [|f IH]; intros n acc Hacc; simpl; auto.
  assert (Hm : (n mod 10 < 10)%N) by (apply N.mod_lt; discriminate).
  destruct (digit_char_props _ Hm) as [Hw _].
  destruct (n <? 10)%N; [|apply IH]; simpl; rewrite Hw, Hacc; reflexivity.
Qed.

Lemma dec_aux_head (f : nat) (n : N) (acc : string) :
  exists d s, dec_aux (S f) n acc = String (digit_char d) s /\ (d < 10)%N.
Proof.
  revert n acc; induction f as [|f IH]; intros n acc;
    assert (Hm : (n mod 10 < 10)%N) by (apply N.mod_lt; discriminate).
  - simpl; destruct (n <? 10)%N; eauto.
  - change (dec_aux (S (S f)) n acc)
      with (if (n <? 10)%N then String (digit_char (n mod 10)) acc
            else dec_aux (S f) (n / 10) (String (digit_char (n mod 10)) acc)).
    destruct (n <? 10)%N; eauto.
Qed.

Lemma parse_digits_step (acc d : N) (c : ascii) (s : string) :
  digit_value c = Some d -> (acc * 10 + d < u64_max)%N ->
  parse_digits acc (String c s) = parse_digits (acc * 10 + d) s.
Proof.
  intros Hv Hlt; simpl; rewrite Hv; unfold checked_mul, checked_add.
  destruct (N.ltb_spec (acc * 10) u64_max); [|lia].
  destruct (N.ltb_spec (acc * 10 + d) u64_max); [reflexivity|lia].
Qed.

Lemma parse_digits_dec (f : nat) (n : N) (acc : string) :
  (n < 10 ^ N.of_nat f)%N -> (n < u64_max)%N ->
  parse_digits 0 (dec_aux f n acc) = parse_digits n acc.
Proof.
  revert n acc; induction f as [|f IH]; intros n acc Hf Hmax.
  - simpl in Hf; assert (n = 0%N) by lia; subst; reflexivity.
  - rewrite Nat2N.inj_succ, N.pow_succ_r' in Hf.
    pose proof (N.div_mod n 10 ltac:(discriminate)) as Hdm.
    assert (Hm : (n mod 10 < 10)%N) by (apply N.mod_lt; discriminate).
    destruct (digit_char_props _ Hm) as [_ [Hv _]].
    simpl dec_aux; destruct (n <? 10)%N eqn:E.
    + apply N.ltb_lt in E; rewrite N.mod_small in Hv |- * by auto.
      rewrite parse_digits_step with (d := n) by (auto; lia).
      replace (0 * 10 + n)%N with n by lia; reflexivity.
    + remember (n / 10)%N as q; remember (n mod 10)%N as r.
      remember (10 ^ N.of_nat f)%N as P.
      rewrite IH by lia.
      rewrite parse_digits_step with (d := r) by (auto; lia).
      replace (q * 10 + r)%N with n by lia; reflexivity.
Qed.

Lemma parse_u64_to_string (p : N) :
  (p < u64_max)%N -> parse_u64 (u64_to_string p) = Some p.
Proof.
  intros Hp; unfold u64_to_string.
  destruct (dec_aux_head 19 p EmptyString) as [d [s [E Hd]]].
  destruct (digit_char_props _ Hd) as [_ [_ Hplus]].
  change 20 with (S 19); rewrite E.
  cbv beta iota delta [parse_u64]; rewrite Hplus.
  rewrite <- E, parse_digits_dec; [reflexivity| |auto].
  apply N.lt_trans with u64_max; [auto|reflexivity].
Qed.

Lemma u64_to_string_no_ws (p : N) : no_ws (u64_to_string p) = true.
Proof. apply dec_aux_no_ws; reflexivity. Qed.

(** ** The header fields of [save_file] *)

Lemma has_char_app (c : ascii) (a b : string) :
  has_char c (a ++ b) = has_char c a || has_char c b.
Proof. induction a as [|c' a IH]; simpl; [|rewrite IH, orb_assoc]; reflexivity. Qed.

Lemma has_char_join (c : ascii) (sep : string) (xs : list string) :
  has_char c sep = false -> Forall (fun x => has_char c x = false) xs ->
  has_char c (join sep xs) = false.
Proof.
  intros Hs Hxs; induction Hxs as [|x xs Hx Hxs IH]; auto.
  destruct xs as [|y xs]; auto.
  change (join sep (x :: y :: xs)) with (x ++ sep ++ join sep (y :: xs)).
  rewrite !has_char_app, Hx, Hs, IH; reflexivity.
Qed.

Lemma no_ws_no_nl (s : string) : no_ws s = true -> has_char nl s = false.
Proof.
  induction s as [|c s IH]; simpl; auto.
  intros H; apply andb_prop in H as [H1 H2]; rewrite IH by auto.
  destruct (Ascii.eqb c nl) eqn:E; auto.
  apply Ascii.eqb_eq in E; subst; discriminate.
Qed.

Lemma split_sep_lead (sep : ascii) (z : string) :
  split sep (String sep EmptyString ++ z) = EmptyString :: split sep z.
Proof. simpl; rewrite Ascii.eqb_refl; reflexivity. Qed.

Lemma tags_roundtrip (ts : list string) :
  ts <> [] -> Forall (fun t => has_char ","%char t = false /\ trim t = t) ts ->
  map trim (split ","%char (join "," ts ++ NL)) = ts.
Proof.
  induction ts as [|x ts IH]; intros Hne Hts; [congruence|].
  inversion Hts as [|? ? [Hc Ht] Hts']; subst.
  destruct ts as [|y ts].
  - simpl join; rewrite split_app_free by auto; simpl.
    rewrite trim_app_ws by reflexivity; congruence.
  - change (join "," (x :: y :: ts)) with (x ++ "," ++ join "," (y :: ts)).
    rewrite !sapp_assoc, split_app_free, split_sep_lead by auto.
    cbn [map]; rewrite sapp_nil_r, Ht, IH by (auto; discriminate).
    reflexivity.
Qed.

Lemma blocks_text_map (es : list SynElement) :
  blocks_text (map generate_line es)
  = fold_right (fun e acc =>
                  generate_line e ++ String nl (String nl EmptyString) ++ acc)
               EmptyString es.
Proof. induction es as [|e es IH]; simpl; [|rewrite IH]; reflexivity. Qed.

Lemma save_file_doc_text (f : SynFile) :
  save_file f = doc_text (title f) (join "," (tags f)) (u64_to_string (posted f))
                         (summary f) (map generate_line (elements f)).
Proof. unfold save_file, doc_text; rewrite blocks_text_map; reflexivity. Qed.


Lemma prefix_cons_head (a b : ascii) (s1 s2 : string) :
  String.prefix (String a s1) (String b s2) = true -> a = b.
Proof. simpl; destruct (ascii_dec a b); auto; discriminate. Qed.

Lemma starts_hash_not_img (t : string) :
  starts_with t "#" = true -> starts_with t ".img " = false.
Proof.
  unfold starts_with; intros H; destruct t as [|c t]; [discriminate H|].
  apply prefix_cons_head in H; subst; reflexivity.
Qed.

(** When [parse_line] fails. *)
Lemma parse_line_Err_iff (l : string) :
  parse_line l = Err tt <->
  starts_with (trim l) ".img " = true /\
  List.length (split "|"%char (drop 5 (trim l))) <> 3.
Proof.
  unfold parse_line; set (t := trim l).
  destruct (String.eqb t "---") eqn:E1.
  { apply String.eqb_eq in E1; rewrite E1.
    split; [discriminate|intros [H _]; discriminate H]. }
  destruct (starts_with t "#") eqn:E2.
  { rewrite starts_hash_not_img by auto.
    split; [discriminate|intros [H _]; discriminate H]. }
  destruct (starts_with t ".img ") eqn:E3.
  - destruct (split "|"%char (drop 5 t)) as [|p [|a [|s [|x y]]]];
      (split; intros H; [|]);
      solve [ discriminate | reflexivity | split; [reflexivity|simpl; lia]
            | destruct H as [_ H]; simpl in H; lia ].
  - destruct (starts_with t ".code ");
      (split; [discriminate|intros [H _]; discriminate H]).
Qed.

Lemma prefix_cons_same (a : ascii) (s1 s2 : string) :
  String.prefix (String a s1) (String a s2) = String.prefix s1 s2.
Proof. simpl; destruct (ascii_dec a a); congruence. Qed.








Lemma replace_newlines (t : string) :
  replace t NL "<br>" = newlines_to_br t.
Proof.
  unfold replace; induction t as [|c t IH]; [reflexivity|].
  change (replace_aux NL "<br>" 0 (String c t))
    with (if String.prefix NL (String c t)
          then "<br>" ++ replace_aux NL "<br>" (String.length NL - 1) t
          else String c (replace_aux NL "<br>" 0 t)).
  change (newlines_to_br (String c t))
    with ((if Ascii.eqb c nl then "<br>" else String c EmptyString)
          ++ newlines_to_br t).
  destruct (ascii_dec nl c) as [<-|Hn].
  - unfold NL at 1; rewrite prefix_cons_same, prefix_empty, Ascii.eqb_refl.
    change (String.length NL - 1) with 0; rewrite IH; reflexivity.
  - destruct (String.prefix NL (String c t)) eqn:E.
    + apply prefix_cons_head in E; congruence.
    + replace (Ascii.eqb c nl) with false
        by (symmetry; apply Ascii.eqb_neq; congruence).
      rewrite IH; reflexivity.
Qed.

(** At the end of input the loop flushes the (empty) line buffer. *)
Lemma read_body_eof (acc : list SynElement) :
  read_body acc EmptyString [] = app acc [Text EmptyString].
Proof. reflexivity. Qed.

(** ** Lemmas on [trim] *)

Lemma trim_end_idem (s : string) : trim_end (trim_end s) = trim_end s.
Proof.
  induction s as [|c s IH]; [reflexivity|].
  cbn [trim_end].
  destruct (is_ws c && String.eqb (trim_end s) EmptyString) eqn:E; [reflexivity|].
  cbn [trim_end]; rewrite IH, E; reflexivity.
Qed.

Lemma trim_start_head (s : string) :
  trim_start s = EmptyString \/
  exists c r, trim_start s = String c r /\ is_ws c = false.
Proof.
  induction s as [|c s IH]; simpl; auto.
  destruct (is_ws c) eqn:E; auto; right; eauto.
Qed.

Lemma trim_idem (s : string) : trim (trim s) = trim s.
Proof.
  unfold trim; destruct (trim_start_head s) as [E|[c [r [E Hc]]]]; rewrite E;
    [reflexivity|].
  assert (Hs : forall t, trim_end (String c t) = String c (trim_end t))
    by (intros t; simpl; rewrite Hc; reflexivity).
  assert (Hst : forall t, trim_start (String c t) = String c t)
    by (intros t; simpl; rewrite Hc; reflexivity).
  rewrite Hs, Hst, Hs, trim_end_idem; reflexivity.
Qed.

Lemma trim_start_suffix (s : string) : exists p, s = p ++ trim_start s.
Proof.
  induction s as [|c s [p E]]; simpl; [exists EmptyString; reflexivity|].
  destruct (is_ws c); [exists (String c p); simpl; congruence|].
  exists EmptyString; reflexivity.
Qed.

Lemma trim_end_prefix (s : string) : exists q, s = trim_end s ++ q.
Proof.
  induction s as [|c s [q E]]; simpl; [exists EmptyString; reflexivity|].
  destruct (is_ws c && String.eqb (trim_end s) EmptyString);
    [exists (String c s); reflexivity|].
  exists q; simpl; congruence.
Qed.

Lemma has_char_trim (x : ascii) (s : string) :
  has_char x (trim s) = true -> has_char x s = true.
Proof.
  unfold trim; intros H.
  destruct (trim_start_suffix s) as [p Ep].
  destruct (trim_end_prefix (trim_start s)) as [q Eq].
  rewrite Ep, Eq, !has_char_app, H.
  destruct (has_char x p); reflexivity.
Qed.

(** ** Lemmas on the element grammar *)

Lemma prefix_drop (p s : string) :
  String.prefix p s = true -> p ++ drop (String.length p) s = s.
Proof.
  revert s; induction p as [|c p IH]; intros s H; [reflexivity|].
  destruct s as [|d s]; [discriminate H|].
  pose proof (prefix_cons_head _ _ _ _ H); subst.
  rewrite prefix_cons_same in H; simpl; rewrite IH by auto; reflexivity.
Qed.

(** The line an element is written as is the trimmed line it was
    parsed from. *)
Lemma generate_parsed_line (s : string) (e : SynElement) :
  parse_line s = Ok e -> generate_line e = trim s.
Proof.
  unfold parse_line; set (t := trim s); intros H.
  destruct (String.eqb t "---") eqn:E1.
  { injection H as <-; apply String.eqb_eq in E1; auto. }
  destruct (starts_with t "#") eqn:E2.
  { injection H as <-; exact (prefix_drop "#" t E2). }
  destruct (starts_with t ".img ") eqn:E3.
  { destruct (split "|"%char (drop 5 t)) as [|p [|a [|st [|x y]]]] eqn:Es;
      try discriminate H.
    injection H as <-; cbn [generate_line].
    pose proof (split_join "|"%char (drop 5 t)) as J; rewrite Es in J.
    cbn [join] in J; rewrite J; exact (prefix_drop ".img " t E3). }
  destruct (starts_with t ".code ") eqn:E4.
  { injection H as <-; exact (prefix_drop ".code " t E4). }
  injection H as <-; reflexivity.
Qed.

Lemma parse_line_trim_eq (s : string) : parse_line (trim s) = parse_line s.
Proof. unfold parse_line; rewrite trim_idem; reflexivity. Qed.

Lemma parse_line_reparse (s : string) (e : SynElement) :
  parse_line s = Ok e -> parse_line (generate_line e) = Ok e.
Proof.
  intros H; rewrite (generate_parsed_line s e H), parse_line_trim_eq; exact H.
Qed.

Lemma has_char_newlines_to_br (t : string) :
  has_char nl (newlines_to_br t) = false.
Proof.
  induction t as [|c t IH]; [reflexivity|].
  cbn [newlines_to_br]; rewrite has_char_app, IH, orb_false_r.
  destruct (Ascii.eqb c nl) eqn:E; [reflexivity|].
  simpl; rewrite E; reflexivity.
Qed.

(** ** Lemmas on [split] before a newline *)

Lemma split_app_nl (sep : ascii) (x : string) :
  Ascii.eqb nl sep = false ->
  exists pre lst, split sep x = app pre [lst] /\
                  split sep (x ++ NL) = app pre [lst ++ NL].
Proof.
  intros Hs; induction x as [|c x [pre [lst [E1 E2]]]].
  - exists [], EmptyString; split; [reflexivity|].
    change (split sep (EmptyString ++ NL))
      with (if Ascii.eqb nl sep then [EmptyString; EmptyString]
            else [String nl EmptyString]).
    rewrite Hs; reflexivity.
  - simpl; rewrite E1, E2.
    destruct (Ascii.eqb c sep).
    + exists (EmptyString :: pre), lst; split; reflexivity.
    + destruct pre as [|p pre].
      * exists [], (String c lst); split; reflexivity.
      * exists (String c p :: pre), lst; split; reflexivity.
Qed.

Lemma tags_line_nl (x : string) :
  map trim (split ","%char (x ++ NL)) = map trim (split ","%char x).
Proof.
  destruct (split_app_nl ","%char x ltac:(reflexivity)) as [pre [lst [E1 E2]]].
  rewrite E1, E2, !map_app; cbn [map].
  rewrite trim_app_ws by reflexivity; reflexivity.
Qed.

(** ** Lemmas on the reader *)

Lemma chunks_shape (s : string) :
  Forall (fun c => exists l, has_char nl l = false /\ (c = l \/ c = l ++ NL))
         (chunks s).
Proof.
  induction s as [|c s IH]; simpl; [constructor|].
  destruct (Ascii.eqb c nl) eqn:E.
  - apply Ascii.eqb_eq in E; subst.
    constructor; [|exact IH].
    exists EmptyString; split; [reflexivity|right; reflexivity].
  - destruct (chunks s) as [|ch rest].
    + constructor; [|constructor].
      exists (String c EmptyString); split; [simpl; rewrite E; reflexivity|].
      left; reflexivity.
    + inversion IH as [|? ? [l [Hl Hc]] Hr]; subst.
      constructor; [|exact Hr].
      exists (String c l); split; [simpl; rewrite E, Hl; reflexivity|].
      destruct Hc as [-> | ->]; [left|right]; reflexivity.
Qed.

Lemma chunk_nth_one_line (s : string) (k : nat) :
  has_char nl (trim (nth k (chunks s) EmptyString)) = false.
Proof.
  assert (Hk : exists l, has_char nl l = false /\
            (nth k (chunks s) EmptyString = l \/
             nth k (chunks s) EmptyString = l ++ NL)).
  { destruct (Nat.lt_ge_cases k (List.length (chunks s))) as [Hl|Hl].
    - pose proof (chunks_shape s) as F; rewrite Forall_forall in F.
      apply F, nth_In; auto.
    - rewrite nth_overflow by auto; exists EmptyString; auto. }
  destruct Hk as [l [Hl [-> | ->]]];
    [|rewrite trim_app_ws by reflexivity];
    destruct (has_char nl (trim l)) eqn:E; auto;
    apply has_char_trim in E; congruence.
Qed.

Lemma load_file_eq (content : string) :
  load_file (Some content)
  = Ok (mkSynFile (trim (nth 0 (chunks content) EmptyString))
          (map trim (split ","%char (nth 1 (chunks content) EmptyString)))
          (match parse_u64 (trim (nth 2 (chunks content) EmptyString)) with
           | Some n => n | None => 0%N end)
          (trim (nth 3 (chunks content) EmptyString))
          (read_body [] (nth 3 (chunks content) EmptyString)
                     (skipn 4 (chunks content)))).
Proof.
  unfold load_file; destruct (chunks content) as [|c1 [|c2 [|c3 [|c4 r]]]];
    reflexivity.
Qed.

Lemma load_file_metadata_eq (content : string) :
  load_file_metadata (Some content)
  = Ok (mkSynFile (trim (nth 0 (chunks content) EmptyString))
          (map trim (split ","%char (nth 1 (chunks content) EmptyString)))
          (match parse_u64 (trim (nth 2 (chunks content) EmptyString)) with
           | Some n => n | None => 0%N end)
          (trim (nth 3 (chunks content) EmptyString)) []).
Proof.
  unfold load_file_metadata;
    destruct (chunks content) as [|c1 [|c2 [|c3 [|c4 r]]]]; reflexivity.
Qed.

Lemma push_parsed_in (acc : list SynElement) (l : string) (e : SynElement) :
  In e (push_parsed acc l) -> In e acc \/ parse_line l = Ok e.
Proof.
  unfold push_parsed; destruct (parse_line l) eqn:E; auto.
  intros H; apply in_app_or in H as [H|[<-|[]]]; auto.
Qed.

Lemma push_parsed_length (acc : list SynElement) (l : string) :
  List.length (push_parsed acc l) <= S (List.length acc).
Proof.
  unfold push_parsed; destruct (parse_line l); [|lia].
  rewrite length_app; simpl; lia.
Qed.

Lemma read_body_in (acc : list SynElement) (line : string) (r : list string)
  (e : SynElement) :
  In e (read_body acc line r) -> In e acc \/ exists s, parse_line s = Ok e.
Proof.
  revert acc line; induction r as [|ch r IH]; intros acc line H;
    cbn [read_body] in H.
  - apply push_parsed_in in H as [H|H]; eauto.
  - destruct (Nat.leb (String.length ch) 1);
      apply IH in H as [H|H]; auto.
    apply push_parsed_in in H as [H|H]; eauto.
Qed.

Lemma read_body_length (acc : list SynElement) (line : string)
  (r : list string) :
  List.length (read_body acc line r) <= List.length acc + S (blank_count r).
Proof.
  unfold blank_count; revert acc line; induction r as [|ch r IH]; intros acc line;
    cbn [read_body filter].
  - pose proof (push_parsed_length acc line); simpl; lia.
  - destruct (Nat.leb (String.length ch) 1); cbn [List.length].
    + specialize (IH (push_parsed acc (line ++ ch)) EmptyString).
      pose proof (push_parsed_length acc (line ++ ch)); lia.
    + specialize (IH acc (line ++ ch)); lia.
Qed.

(** ** A document text: the header lines *)

Lemma chunks_header (l1 l2 l3 l4 rest : string) :
  has_char nl l1 = false -> has_char nl l2 = false ->
  has_char nl l3 = false -> has_char nl l4 = false ->
  chunks (l1 ++ NL ++ l2 ++ NL ++ l3 ++ NL ++ l4 ++ NL ++ rest)
  = (l1 ++ NL) :: (l2 ++ NL) :: (l3 ++ NL) :: (l4 ++ NL) :: chunks rest.
Proof. intros; rewrite !NL_app, !chunks_line by auto; reflexivity. Qed.

Lemma metadata_lines (l1 l2 l3 l4 rest : string) :
  has_char nl l1 = false -> has_char nl l2 = false ->
  has_char nl l3 = false -> has_char nl l4 = false ->
  load_file_metadata (Some (l1 ++ NL ++ l2 ++ NL ++ l3 ++ NL ++ l4 ++ NL ++ rest))
  = Ok (mkSynFile (trim l1) (map trim (split ","%char l2))
          (match parse_u64 (trim l3) with Some n => n | None => 0%N end)
          (trim l4) []).
Proof.
  intros H1 H2 H3 H4.
  rewrite load_file_metadata_eq, chunks_header by auto; cbn [nth].
  rewrite !trim_app_ws, tags_line_nl by reflexivity; reflexivity.
Qed.

Lemma trim_start_ws_app (w s : string) :
  all_ws w = true -> trim_start (w ++ s) = trim_start s.
Proof.
  induction w as [|c w IH]; simpl; auto.
  intros H; apply andb_prop in H as [-> H]; auto.
Qed.

(** ** The text [save_file] writes ends in blank lines *)

Lemma chunks_nl_nonempty (a : string) : chunks (a ++ NL) <> [].
Proof.
  induction a as [|c a IH]; [discriminate|].
  cbn [String.append chunks].
  destruct (Ascii.eqb c nl); [discriminate|].
  destruct (chunks (a ++ NL)); discriminate.
Qed.

Lemma chunks_app_nl (a r : string) :
  chunks (a ++ String nl r) = app (chunks (a ++ NL)) (chunks r).
Proof.
  induction a as [|c a IH]; [reflexivity|].
  cbn [String.append chunks].
  destruct (Ascii.eqb c nl); [rewrite IH; reflexivity|].
  rewrite IH; destruct (chunks (a ++ NL)) as [|h t] eqn:E;
    [exfalso; exact (chunks_nl_nonempty a E)|reflexivity].
Qed.

Lemma chunks_length_nl (a r : string) :
  S (List.length (chunks r)) <= List.length (chunks (a ++ String nl r)).
Proof.
  rewrite chunks_app_nl, length_app.
  destruct (chunks (a ++ NL)) eqn:E; [exfalso; exact (chunks_nl_nonempty a E)|].
  simpl; lia.
Qed.

Lemma fold_save_block (es : list SynElement) (acc : string) :
  fold_right save_block acc es = fold_right save_block EmptyString es ++ acc.
Proof.
  induction es as [|e es IH]; [reflexivity|].
  cbn [fold_right]; rewrite IH; unfold save_block; rewrite !sapp_assoc; reflexivity.
Qed.

Lemma chunks_empty_texts (t : nat) :
  chunks (fold_right save_block EmptyString (repeat (Text EmptyString) t))
  = repeat NL (t + t).
Proof.
  induction t as [|t IH]; [reflexivity|].
  replace (S t + S t) with (S (S (t + t))) by lia.
  change (fold_right save_block EmptyString (repeat (Text EmptyString) (S t)))
    with (String nl (String nl
            (fold_right save_block EmptyString (repeat (Text EmptyString) t)))).
  rewrite !chunks_nl, IH; reflexivity.
Qed.

Lemma repeat_trailing (es : list SynElement) :
  exists es', es = app es' (repeat (Text EmptyString) (trailing_empty es)).
Proof.
  assert (H : forall m, exists y, m = app (repeat (Text EmptyString) (lead_empty m)) y).
  { induction m as [|a m [y IH]]; [exists []; reflexivity|].
    destruct a as [[|c s]|t|t|p a st|];
      try (exists (a :: m) || eexists; reflexivity).
    exists y; simpl; rewrite <- IH; reflexivity. }
  destruct (H (rev es)) as [y E].
  exists (rev y); unfold trailing_empty.
  set (n := lead_empty (rev es)) in *.
  rewrite <- (rev_involutive es), E, rev_app_distr, rev_repeat.
  reflexivity.
Qed.

Lemma lead_empty_repeat (k : nat) (x : list SynElement) :
  k <= lead_empty (app (repeat (Text EmptyString) k) x).
Proof. induction k as [|k IH]; simpl; lia. Qed.

(** ** The body loop on a text that ends in blank lines *)

Lemma read_body_to_nl (rest : list string) (acc : list SynElement)
  (line : string) (r : list string) :
  exists acc', read_body acc line (app rest (NL :: r)) = read_body acc' EmptyString r.
Proof.
  revert acc line; induction rest as [|ch rest IH]; intros acc line.
  - eexists; reflexivity.
  - cbn [app read_body]; destruct (Nat.leb (String.length ch) 1); apply IH.
Qed.

Lemma read_body_nls_end (k : nat) (acc : list SynElement) :
  read_body acc EmptyString (repeat NL k)
  = app acc (app (repeat (Text EmptyString) k) [Text EmptyString]).
Proof.
  revert acc; induction k as [|k IH]; intros acc; [reflexivity|].
  change (read_body acc EmptyString (repeat NL (S k)))
    with (read_body (app acc [Text EmptyString]) EmptyString (repeat NL k)).
  rewrite IH, <- app_assoc; reflexivity.
Qed.

Lemma save_file_tail (f : SynFile) :
  exists z, save_file f
  = (title f ++ NL ++ join "," (tags f) ++ NL ++ u64_to_string (posted f) ++ NL
     ++ summary f ++ z)
    ++ String nl (String nl (fold_right save_block EmptyString
                 (repeat (Text EmptyString) (trailing_empty (elements f))))).
Proof.
  destruct (repeat_trailing (elements f)) as [es' E].
  set (T := fold_right save_block EmptyString
              (repeat (Text EmptyString) (trailing_empty (elements f)))).
  assert (Hb : fold_right (fun e acc =>
                 generate_line e ++ String nl (String nl EmptyString) ++ acc)
                 EmptyString (elements f)
               = fold_right save_block T es').
  { change (fun e acc => generate_line e ++ String nl (String nl EmptyString) ++ acc)
      with save_block.
    rewrite E at 1; rewrite fold_right_app; reflexivity. }
  unfold save_file; rewrite Hb.
  destruct es' as [|e0 es0] using rev_ind.
  - exists EmptyString; rewrite sapp_nil_r, !sapp_assoc; reflexivity.
  - exists (String nl (String nl (fold_right save_block EmptyString es0 ++ generate_line e0))).
    rewrite fold_right_app; cbn [fold_right]; unfold save_block at 2.
    rewrite fold_save_block; unfold NL; cbn [String.append].
    repeat (rewrite !sapp_assoc; cbn [String.append]); reflexivity.
Qed.

(** * Claims *)

Definition example_doc : SynFile :=
  mkSynFile "Hello" ["rust"; "blog"] 1700000000 "A first post"
    [Text ("Hello," ++ NL ++ "SynBlog!"); Heading "Big Title"; LineH;
     Image "test.png" "A test image!" "width:100%"; Code "let x = 1;"].

Ltac discharge :=
  repeat (unfold wire_stable, block_ok; simpl;
          first [ reflexivity | discriminate | lia | split | constructor ]).

(** ** C1: loading what [save_file] wrote *)

(** C1 (code bug, failing input): a document with no elements comes
    back with the summary parsed as a text element and an empty text
    element at the end. *)
Lemma save_load_summary_element :
  load_file (Some (save_file (mkSynFile "Hello" ["a"] 1 "Sum" [])))
  = Ok (mkSynFile "Hello" ["a"] 1 "Sum" [Text "Sum"; Text EmptyString]).
Proof. reflexivity. Qed.

(** C1 (code bug): no document is read back by [load_file] from the text
    [save_file] writes: the loaded elements always end in more empty
    text elements than the document's. *)
Theorem save_load_never_identity (f : SynFile) :
  load_file (Some (save_file f)) <> Ok f.
Proof.
  set (t := trailing_empty (elements f)).
  destruct (save_file_tail f) as [z Ez]; fold t in Ez.
  set (Z := title f ++ NL ++ join "," (tags f) ++ NL ++ u64_to_string (posted f)
            ++ NL ++ summary f ++ z) in Ez.
  assert (HC : 4 <= List.length (chunks (Z ++ NL))).
  { unfold Z; rewrite !sapp_assoc, !NL_app.
    pose proof (chunks_nl_nonempty (summary f ++ z)) as A0.
    rewrite sapp_assoc in A0.
    pose proof (chunks_length_nl (u64_to_string (posted f))
                  (summary f ++ z ++ NL)) as A3.
    pose proof (chunks_length_nl (join "," (tags f)) (u64_to_string (posted f)
                  ++ String nl (summary f ++ z ++ NL))) as A2.
    pose proof (chunks_length_nl (title f) (join "," (tags f) ++ String nl
                  (u64_to_string (posted f) ++ String nl (summary f ++ z ++ NL))))
      as A1.
    destruct (chunks (summary f ++ z ++ NL)); [congruence|].
    simpl in A3; lia. }
  rewrite Ez, load_file_eq, chunks_app_nl, chunks_nl, chunks_empty_texts.
  rewrite skipn_app, (proj2 (Nat.sub_0_le _ _)) by lia; change (skipn 0 ?x) with x.
  destruct (read_body_to_nl (skipn 4 (chunks (Z ++ NL))) []
              (nth 3 (app (chunks (Z ++ NL)) (NL :: repeat NL (t + t))) EmptyString)
              (repeat NL (t + t))) as [acc' Ea].
  rewrite Ea, read_body_nls_end.
  intros H; injection H as H; apply (f_equal elements) in H as He; cbn [elements] in He.
  assert (Ht : S (t + t) <= trailing_empty (elements f)).
  { rewrite <- He; unfold trailing_empty.
    rewrite !rev_app_distr, rev_repeat; cbn [rev app].
    change (lead_empty (Text EmptyString :: app (repeat (Text EmptyString) (t + t)) (rev acc')))
      with (S (lead_empty (app (repeat (Text EmptyString) (t + t)) (rev acc')))).
    pose proof (lead_empty_repeat (t + t) (rev acc')); lia. }
  fold t in Ht; lia.
Qed.

(** ** C2: [parse_line] after [generate_line] *)

(** C2 (counterexample): the text element ["#x"] is written as the line
    ["#x"], which [parse_line] reads as the heading ["x"]. *)
Lemma parse_generate_counterexample :
  parse_line (generate_line (Text "#x")) = Ok (Heading "x") /\
  parse_line (generate_line (Text "#x")) <> Ok (Text "#x").
Proof. split; [reflexivity|vm_compute; discriminate]. Qed.

(** C2 (amended): [parse_line (generate_line e) = Ok e] for every element
    whose wire line has no leading or trailing whitespace, whose image
    fields contain no ['|'], and whose text payload is not ["---"] and
    does not start with ["#"], [".img "] or [".code "]. *)
Theorem parse_line_generate_line (e : SynElement) :
  trim (generate_line e) = generate_line e ->
  (forall t, e = Text t -> t <> "---" /\ starts_with t "#" = false /\
             starts_with t ".img " = false /\ starts_with t ".code " = false) ->
  (forall p a s, e = Image p a s -> has_char "|"%char p = false /\
             has_char "|"%char a = false /\ has_char "|"%char s = false) ->
  parse_line (generate_line e) = Ok e.
Proof.
  intros Ht HT HI; apply parse_generate_line; split; [exact Ht|].
  destruct e; eauto.
Qed.

Lemma parse_line_generate_line_witness :
  parse_line (generate_line (Image "test.png" "A test image!" "width:100%"))
  = Ok (Image "test.png" "A test image!" "width:100%").
Proof.
  apply parse_line_generate_line;
    [reflexivity | intros ? H; discriminate H | intros ? ? ? H; injection H;
     intros; subst; repeat split].
Defined.

(** ** C3: a header of fewer than four lines *)

(** C3 (counterexample): a file holding only a title line is loaded
    without error. *)
Lemma load_truncated_counterexample :
  List.length (chunks ("Title" ++ NL)) = 1 /\
  exists f, load_file (Some ("Title" ++ NL)) = Ok f.
Proof. split; [reflexivity|eexists; reflexivity]. Qed.

(** C3 (amended): on a file that opens, [load_file] with fewer than four
    header lines still succeeds; the header fields whose lines are
    missing are read from an empty line: summary [""], posted [0], tags
    [[""]] and title [""]. *)
Theorem load_file_truncated_header (content : string) :
  List.length (chunks content) < 4 ->
  exists f, load_file (Some content) = Ok f /\ summary f = "" /\
    (List.length (chunks content) < 3 -> posted f = 0%N) /\
    (List.length (chunks content) < 2 -> tags f = [""]) /\
    (List.length (chunks content) < 1 -> title f = "").
Proof.
  intros H; unfold load_file.
  destruct (chunks content) as [|c1 [|c2 [|c3 [|c4 r]]]]; simpl in H;
    try lia; eexists; split; try reflexivity;
    cbn [title tags posted summary]; repeat split; intros; simpl in *;
    solve [reflexivity | lia].
Qed.

Lemma load_file_truncated_header_witness :
  exists f, load_file (Some ("Title" ++ NL)) = Ok f /\ summary f = "" /\
    (List.length (chunks ("Title" ++ NL)) < 3 -> posted f = 0%N) /\
    (List.length (chunks ("Title" ++ NL)) < 2 -> tags f = [""]) /\
    (List.length (chunks ("Title" ++ NL)) < 1 -> title f = "").
Proof. apply load_file_truncated_header; simpl; lia. Defined.

(** ** C4: how [parse_line] classifies a trimmed line *)

(** C4: for a line without surrounding whitespace, ["---"] is a divider,
    ["#" ++ r] the heading [r], [".img " ++ r] with three ['|']-separated
    fields an image, [".code " ++ r] the code [r], and any other line the
    text of the line itself. *)
Theorem parse_line_classification (l : string) :
  trim l = l ->
  (l = "---" -> parse_line l = Ok LineH) /\
  (forall r, l = "#" ++ r -> parse_line l = Ok (Heading r)) /\
  (forall r p a s, l = ".img " ++ r -> split "|"%char r = [p; a; s] ->
                   parse_line l = Ok (Image p a s)) /\
  (forall r, l = ".code " ++ r -> parse_line l = Ok (Code r)) /\
  (l <> "---" -> starts_with l "#" = false -> starts_with l ".img " = false ->
   starts_with l ".code " = false -> parse_line l = Ok (Text l)).
Proof.
  intros Ht; unfold parse_line; rewrite Ht; repeat split.
  - intros ->; reflexivity.
  - intros r ->; cbn; rewrite prefix_empty; reflexivity.
  - intros r p a s -> Hs; cbn; rewrite prefix_empty.
    simpl in Hs; rewrite Hs; reflexivity.
  - intros r ->; cbn; rewrite prefix_empty; reflexivity.
  - intros H1 H2 H3 H4.
    destruct (String.eqb l "---") eqn:E; [apply String.eqb_eq in E; congruence|].
    rewrite H2, H3, H4; reflexivity.
Qed.

Lemma parse_line_classification_witness :
  parse_line ".img test.png|A test image!|width:100%"
  = Ok (Image "test.png" "A test image!" "width:100%").
Proof.
  apply (proj1 (proj2 (proj2
           (parse_line_classification ".img test.png|A test image!|width:100%"
              ltac:(reflexivity))))
         "test.png|A test image!|width:100%"); reflexivity.
Defined.

(** ** C5: when [parse_line] fails *)

(** C5 (counterexample): the line [".img "] starts with [".img "] and
    its remainder [""] is one segment, yet [parse_line] trims it to
    [".img"] first and returns a text element. *)
Lemma parse_line_err_counterexample :
  starts_with ".img " ".img " = true /\
  List.length (split "|"%char (drop 5 ".img ")) <> 3 /\
  parse_line ".img " = Ok (Text ".img").
Proof. split; [reflexivity|split; [simpl; lia|reflexivity]]. Qed.

(** C5 (amended): [parse_line l] fails exactly when the trimmed line
    starts with [".img "] and the rest after these five characters does
    not split on ['|'] into exactly three segments; on every other line
    it succeeds. *)
Theorem parse_line_fails_iff (l : string) :
  parse_line l = Err tt <->
  starts_with (trim l) ".img " = true /\
  List.length (split "|"%char (drop 5 (trim l))) <> 3.
Proof. apply parse_line_Err_iff. Qed.

(** ** C6: a malformed image block in the body *)

(** C6 (counterexample): the body block [".img "] has one segment after
    its prefix, but [parse_line] trims it to [".img"] and keeps it as a
    text element, so the block is not left out. *)
Lemma malformed_img_counterexample :
  starts_with ".img " ".img " = true /\
  List.length (split "|"%char (drop 5 ".img ")) <> 3 /\
  exists f f',
    load_file (Some (doc_text "T" "tag" "1" "S" ["A"; ".img "; "B"])) = Ok f /\
    load_file (Some (doc_text "T" "tag" "1" "S" ["A"; "B"])) = Ok f' /\
    In (Text ".img") (elements f) /\ elements f <> elements f'.
Proof.
  split; [reflexivity|split; [simpl; lia|]].
  do 2 eexists; split; [reflexivity|split; [reflexivity|split]].
  - vm_compute; right; right; left; reflexivity.
  - vm_compute; discriminate.
Qed.

(** C6 (amended): in a document text (four header lines, then blocks
    each followed by a blank line), a block whose trimmed text starts
    with [".img "] and whose remainder does not split on ['|'] into
    exactly three segments is left out: [load_file] succeeds and returns
    the same document as for the text without that block, and the
    elements of the blocks before and after it appear in order. *)
Theorem load_file_skips_malformed_img (h1 h2 h3 h4 m : string)
  (bs1 bs2 : list string) :
  has_char nl h1 = false -> has_char nl h2 = false ->
  has_char nl h3 = false -> has_char nl h4 = false ->
  Forall block_ok bs1 -> Forall block_ok bs2 -> block_ok m ->
  starts_with (trim m) ".img " = true ->
  List.length (split "|"%char (drop 5 (trim m))) <> 3 ->
  load_file (Some (doc_text h1 h2 h3 h4 (app bs1 (m :: bs2))))
  = load_file (Some (doc_text h1 h2 h3 h4 (app bs1 bs2))) /\
  exists f pre suf,
    load_file (Some (doc_text h1 h2 h3 h4 (app bs1 (m :: bs2)))) = Ok f /\
    elements f = app pre (app (parsed_blocks bs1) (app (parsed_blocks bs2) suf)).
Proof.
  intros H1 H2 H3 H4 Hb1 Hb2 Hm Hs Hl.
  assert (Hp : parse_line m = Err tt) by (apply parse_line_Err_iff; auto).
  assert (Hpb : parsed_blocks (app bs1 (m :: bs2)) = parsed_blocks (app bs1 bs2)).
  { unfold parsed_blocks; rewrite !flat_map_app; simpl; rewrite Hp; reflexivity. }
  rewrite !load_doc_text by (auto; apply Forall_app; split; auto).
  rewrite Hpb; split; [reflexivity|].
  eexists; exists (push_parsed [] (h4 ++ String nl (String nl EmptyString))),
    [Text EmptyString]; split; [reflexivity|].
  cbn [elements]; rewrite read_body_eof.
  unfold parsed_blocks; rewrite flat_map_app, <- !app_assoc.
  reflexivity.
Qed.

Lemma load_file_skips_malformed_img_witness :
  load_file (Some (doc_text "T" "tag" "1" "S" (app ["A"] (".img a|b" :: ["B"]))))
  = load_file (Some (doc_text "T" "tag" "1" "S" (app ["A"] ["B"]))) /\
  exists f pre suf,
    load_file (Some (doc_text "T" "tag" "1" "S" (app ["A"] (".img a|b" :: ["B"]))))
    = Ok f /\
    elements f = app pre (app (parsed_blocks ["A"]) (app (parsed_blocks ["B"]) suf)).
Proof. apply load_file_skips_malformed_img; discharge. Defined.

(** ** C7: an unparsable timestamp *)

(** C7: when the third line, trimmed, is not a [u64] (it may also be
    empty or missing), [load_file] still succeeds, with [posted = 0]. *)
Theorem load_file_posted_default (content : string) :
  parse_u64 (trim (nth 2 (chunks content) EmptyString)) = None ->
  exists f, load_file (Some content) = Ok f /\ posted f = 0%N.
Proof.
  intros H; unfold load_file.
  destruct (chunks content) as [|c1 [|c2 [|c3 [|c4 r]]]];
    eexists; split; try reflexivity; cbn [posted]; simpl in H;
    try reflexivity; simpl (EmptyString ++ c3); rewrite H; reflexivity.
Qed.

Lemma load_file_posted_default_witness :
  exists f, load_file (Some ("T" ++ NL ++ "tags" ++ NL ++ "not-a-number" ++ NL
                             ++ "S" ++ NL)) = Ok f /\ posted f = 0%N.
Proof. apply load_file_posted_default; reflexivity. Defined.

(** ** C8: the HTML of each element *)

(** C8: [generate_tag] is a total function giving, with no escaping,
    [<p>t</p>] with every newline of [t] replaced by [<br>],
    [<p class='code'>t</p>], [<h2>t</h2>],
    [<img src='p' style='s'>a</img>] and [<div class='hline'></div>]. *)
Theorem generate_tag_shapes (t p a s : string) :
  generate_tag (Text t) = "<p>" ++ newlines_to_br t ++ "</p>" /\
  generate_tag (Code t) = "<p class='code'>" ++ t ++ "</p>" /\
  generate_tag (Heading t) = "<h2>" ++ t ++ "</h2>" /\
  generate_tag (Image p a s)
  = "<img src='" ++ p ++ "' style='" ++ s ++ "'>" ++ a ++ "</img>" /\
  generate_tag LineH = "<div class='hline'></div>".
Proof.
  repeat split; try reflexivity.
  unfold generate_tag; fold NL; rewrite replace_newlines; reflexivity.
Qed.

(** ** C9: loading the metadata only *)

(** C9: on every file content, [load_file_metadata] returns a document
    with no elements and the title, tags, posted and summary that
    [load_file] returns. *)
Theorem load_file_metadata_header (content : string) :
  exists f fm, load_file (Some content) = Ok f /\
    load_file_metadata (Some content) = Ok fm /\
    elements fm = [] /\ title fm = title f /\ tags fm = tags f /\
    posted fm = posted f /\ summary fm = summary f.
Proof.
  unfold load_file, load_file_metadata.
  destruct (chunks content) as [|c1 [|c2 [|c3 [|c4 r]]]];
    do 2 eexists; (split; [reflexivity|split; [reflexivity|]]);
    repeat split.
Qed.

(** ** C10: lines of one block form one element *)



(** * Further properties of the code *)

(** ** [SynElement::parse_line] and [generate_line] *)

(** X1: whitespace added on either side of a line never changes how
    [parse_line] reads it. *)
Theorem parse_line_pad_ws (w1 s w2 : string) :
  all_ws w1 = true -> all_ws w2 = true ->
  parse_line (w1 ++ s ++ w2) = parse_line s.
Proof.
  intros H1 H2; unfold parse_line.
  replace (trim (w1 ++ s ++ w2)) with (trim s); [reflexivity|].
  unfold trim at 2; rewrite trim_start_ws_app by auto.
  symmetry; apply trim_app_ws; auto.
Qed.

Lemma parse_line_pad_ws_witness :
  all_ws "  " = true /\ all_ws " " = true /\
  parse_line ("  " ++ "#Big Title" ++ " ") = parse_line "#Big Title".
Proof.
  split; [reflexivity|split; [reflexivity|]].
  apply parse_line_pad_ws; reflexivity.
Defined.

(** X2: when [parse_line] accepts a line, [generate_line] of the
    element is that line with its surrounding whitespace removed. *)
Theorem generate_line_of_parsed (s : string) (e : SynElement) :
  parse_line s = Ok e -> generate_line e = trim s.
Proof. apply generate_parsed_line. Qed.

Lemma generate_line_of_parsed_witness :
  parse_line " .img a.png|alt|w " = Ok (Image "a.png" "alt" "w") /\
  generate_line (Image "a.png" "alt" "w") = trim " .img a.png|alt|w ".
Proof.
  split; [reflexivity|].
  apply (generate_line_of_parsed " .img a.png|alt|w "); reflexivity.
Defined.

(** X3: every element [parse_line] returns is written by
    [generate_line] as a line that [parse_line] reads back to the same
    element. *)
Theorem parse_line_generate_parsed (s : string) (e : SynElement) :
  parse_line s = Ok e -> parse_line (generate_line e) = Ok e.
Proof.
  intros H; rewrite (generate_parsed_line s e H), parse_line_trim_eq; exact H.
Qed.

Lemma parse_line_generate_parsed_witness :
  parse_line "  ab  " = Ok (Text "ab") /\
  parse_line (generate_line (Text "ab")) = Ok (Text "ab").
Proof.
  split; [reflexivity|].
  apply (parse_line_generate_parsed "  ab  "); reflexivity.
Defined.

(** X4: the three fields of an image element returned by [parse_line]
    contain no ['|']. *)
Theorem parse_line_image_fields (s p a st : string) :
  parse_line s = Ok (Image p a st) ->
  has_char "|"%char p = false /\ has_char "|"%char a = false /\
  has_char "|"%char st = false.
Proof.
  unfold parse_line; set (t := trim s); intros H.
  destruct (String.eqb t "---"); [discriminate H|].
  destruct (starts_with t "#"); [discriminate H|].
  destruct (starts_with t ".img ").
  - pose proof (split_no_sep "|"%char (drop 5 t)) as F.
    destruct (split "|"%char (drop 5 t)) as [|p' [|a' [|st' [|x y]]]];
      try discriminate H.
    injection H as <- <- <-.
    inversion F as [|? ? Hp F1]; inversion F1 as [|? ? Ha F2];
      inversion F2 as [|? ? Hs _]; auto.
  - destruct (starts_with t ".code "); discriminate H.
Qed.

Lemma parse_line_image_fields_witness :
  parse_line ".img a.png|alt|w" = Ok (Image "a.png" "alt" "w") /\
  has_char "|"%char "a.png" = false /\ has_char "|"%char "alt" = false /\
  has_char "|"%char "w" = false.
Proof.
  split; [reflexivity|].
  apply (parse_line_image_fields ".img a.png|alt|w"); reflexivity.
Defined.

(** ** [SynElement::generate_tag] *)

(** X5: the HTML of a text element never contains a newline: every
    newline of the text is written as [<br>]. *)
Theorem generate_tag_text_one_line (t : string) :
  has_char nl (generate_tag (Text t)) = false.
Proof.
  unfold generate_tag; fold NL; rewrite replace_newlines.
  rewrite !has_char_app, has_char_newlines_to_br; reflexivity.
Qed.

(** ** [SynFile::load_file]: the header *)

(** X6: on every file content, the title and summary [load_file]
    returns are single lines with no surrounding whitespace. *)
Theorem load_file_title_summary_lines (content : string) :
  exists f, load_file (Some content) = Ok f /\
    trim (title f) = title f /\ has_char nl (title f) = false /\
    trim (summary f) = summary f /\ has_char nl (summary f) = false.
Proof.
  eexists; split; [apply load_file_eq|]; cbn [title summary].
  rewrite !trim_idem, !chunk_nth_one_line; repeat split.
Qed.

(** X7: on every file content, the tags [load_file] returns form a
    non-empty list (an empty tag line gives the one tag [""]) of strings
    with no surrounding whitespace. *)
Theorem load_file_tags_shape (content : string) :
  exists f, load_file (Some content) = Ok f /\
    tags f <> [] /\ Forall (fun t => trim t = t) (tags f).
Proof.
  eexists; split; [apply load_file_eq|]; cbn [tags]; split.
  - destruct (split_cons ","%char (nth 1 (chunks content) EmptyString))
      as [h [r E]]; rewrite E; discriminate.
  - apply Forall_map, Forall_forall; intros x _; apply trim_idem.
Qed.

(** ** [SynFile::load_file_metadata] *)

(** X9: [load_file_metadata] reads the first four lines and nothing
    after them: the title, summary and tags are the trimmed first,
    fourth and comma-separated second line, [posted] is the third line
    parsed as a [u64] or 0, and the elements are empty, whatever
    follows. *)
Theorem load_file_metadata_four_lines (l1 l2 l3 l4 rest : string) :
  has_char nl l1 = false -> has_char nl l2 = false ->
  has_char nl l3 = false -> has_char nl l4 = false ->
  load_file_metadata (Some (l1 ++ NL ++ l2 ++ NL ++ l3 ++ NL ++ l4 ++ NL ++ rest))
  = Ok (mkSynFile (trim l1) (map trim (split ","%char l2))
          (match parse_u64 (trim l3) with Some n => n | None => 0%N end)
          (trim l4) []).
Proof. apply metadata_lines. Qed.

Lemma load_file_metadata_four_lines_witness :
  load_file_metadata
    (Some ("T" ++ NL ++ "a, b" ++ NL ++ "12" ++ NL ++ " S " ++ NL ++ ".img x"))
  = Ok (mkSynFile "T" ["a"; "b"] 12 "S" []).
Proof.
  apply (load_file_metadata_four_lines "T" "a, b" "12" " S " ".img x");
    reflexivity.
Defined.

(** X10: the header [save_file] writes is read back exactly by
    [load_file_metadata], whatever the elements are, when the title and
    summary are trimmed single lines, the tags a non-empty list of
    trimmed single lines without commas, and [posted] a [u64]. *)
Theorem save_load_metadata (f : SynFile) :
  has_char nl (title f) = false -> trim (title f) = title f ->
  tags f <> [] ->
  Forall (fun t => has_char ","%char t = false /\ has_char nl t = false /\
                   trim t = t) (tags f) ->
  (posted f < u64_max)%N ->
  has_char nl (summary f) = false -> trim (summary f) = summary f ->
  load_file_metadata (Some (save_file f))
  = Ok (mkSynFile (title f) (tags f) (posted f) (summary f) []).
Proof.
  intros Htn Htt Hne Hts Hp Hsn Hst.
  rewrite save_file_doc_text; unfold doc_text.
  rewrite metadata_lines.
  - rewrite Htt, Hst, <- tags_line_nl, tags_roundtrip.
    + rewrite trim_no_ws, parse_u64_to_string by
        (auto; apply u64_to_string_no_ws); reflexivity.
    + auto.
    + eapply Forall_impl; [|exact Hts]; intros t [H1 [_ H3]]; auto.
  - auto.
  - apply has_char_join; [reflexivity|].
    eapply Forall_impl; [|exact Hts]; intros t [_ [H2 _]]; auto.
  - apply no_ws_no_nl, u64_to_string_no_ws.
  - auto.
Qed.

Lemma save_load_metadata_witness :
  load_file_metadata (Some (save_file example_doc))
  = Ok (mkSynFile (title example_doc) (tags example_doc) (posted example_doc)
                  (summary example_doc) []).
Proof. apply save_load_metadata; unfold example_doc, u64_max; discharge. Defined.

(** ** [SynFile::load_file]: the body *)

(** X11: every element [load_file] returns is written by
    [generate_line] as a line that [parse_line] reads back to it. *)
Theorem load_file_elements_stable (content : string) :
  exists f, load_file (Some content) = Ok f /\
    Forall (fun e => parse_line (generate_line e) = Ok e) (elements f).
Proof.
  eexists; split; [apply load_file_eq|]; cbn [elements].
  apply Forall_forall; intros e He.
  apply read_body_in in He as [[]|[s Hs]].
  apply (parse_line_reparse s e Hs).
Qed.

(** X12: [load_file] returns at most one element per line of length at
    most 1 (a blank line, or an empty read) after the first four lines,
    plus the one flushed at the end of the input. *)
Theorem load_file_elements_bound (content : string) :
  exists f, load_file (Some content) = Ok f /\
    List.length (elements f) <= S (blank_count (skipn 4 (chunks content))).
Proof.
  eexists; split; [apply load_file_eq|]; cbn [elements].
  pose proof (read_body_length [] (nth 3 (chunks content) EmptyString)
                               (skipn 4 (chunks content))); simpl in *; lia.
Qed.

(** X13: in the body loop, every blank line read while the line buffer
    is empty adds an empty text element. *)
Theorem read_body_blank_lines (k : nat) (acc : list SynElement)
  (r : list string) :
  read_body acc EmptyString (app (repeat NL k) r)
  = read_body (app acc (repeat (Text EmptyString) k)) EmptyString r.
Proof.
  revert acc; induction k as [|k IH]; intros acc.
  - rewrite app_nil_r; reflexivity.
  - change (app (repeat NL (S k)) r) with (NL :: app (repeat NL k) r).
    change (read_body acc EmptyString (NL :: app (repeat NL k) r))
      with (read_body (app acc [Text EmptyString]) EmptyString
                      (app (repeat NL k) r)).
    rewrite IH, <- app_assoc; reflexivity.
Qed.

(** X14: on a document text (four lines without newline, a blank line,
    then blocks each followed by a blank line), [load_file] returns the
    trimmed title and summary, the trimmed comma-separated tags, the
    timestamp or 0, and as elements: the summary line parsed, then the
    blocks parsed in order with the failed ones left out, then one empty
    text element. *)
Theorem load_file_doc_text (h1 h2 h3 h4 : string) (bs : list string) :
  has_char nl h1 = false -> has_char nl h2 = false ->
  has_char nl h3 = false -> has_char nl h4 = false ->
  Forall block_ok bs ->
  load_file (Some (doc_text h1 h2 h3 h4 bs))
  = Ok (mkSynFile (trim h1) (map trim (split ","%char h2))
          (match parse_u64 (trim h3) with Some n => n | None => 0%N end)
          (trim h4)
          (app (parsed_blocks [h4]) (app (parsed_blocks bs) [Text EmptyString]))).
Proof.
  intros H1 H2 H3 H4 Hbs.
  rewrite load_doc_text, tags_line_nl by auto.
  rewrite read_body_eof, parse_line_app_ws_push by apply all_ws_nlnl.
  rewrite <- !app_assoc; reflexivity.
Qed.

Lemma load_file_doc_text_witness :
  load_file (Some (doc_text "T" "a,b" "7" ".img x" ["#H"; ".img y"; "w"]))
  = Ok (mkSynFile "T" ["a"; "b"] 7 ".img x"
          [Heading "H"; Text "w"; Text EmptyString]).
Proof. apply load_file_doc_text; discharge. Defined.


